(** * Engagement bot of "Astronomy of the Day" (src/engagement.py)

    Shallow embedding of the parts of [EngagementBot] that carry state:
    the processed-interactions ledger and its JSON file, the tweets cache
    of [get_recent_bot_tweets], the reply/repost cycles, the keyword
    blacklist and the scheduler. *)

From Stdlib Require Import ZArith List String Ascii Bool Lia.
Import ListNotations.
Set Warnings "-register-all".
Local Open Scope bool_scope.

(** ** Python values and exceptions *)

(** Hashable scalars that can sit in the ledger sets: what [json.load]
    produces for JSON scalars ([None], [bool], [int], [str]).  Tweet ids
    (tweepy's [Tweet.id]) are [int]s. *)
Inductive atom : Type :=
| ANone
| ABool (b : bool)
| AInt (z : Z)
| AStr (s : string).

(** In Python [True == 1] and [False == 0], with equal hashes. *)
Definition atom_num (a : atom) : option Z :=
  match a with
  | ABool b => Some (if b then 1%Z else 0%Z)
  | AInt z => Some z
  | _ => None
  end.

(** Python's [==] on atoms, which decides set membership. *)
Definition py_eq (a b : atom) : bool :=
  match a, b with
  | ANone, ANone => true
  | AStr s, AStr t => String.eqb s t
  | _, _ =>
      match atom_num a, atom_num b with
      | Some x, Some y => Z.eqb x y
      | _, _ => false
      end
  end.

(** A Python [set] is a list of pairwise distinct atoms, listed in the
    set's iteration order. *)
Definition pyset := list atom.

(** [x in s] *)
Definition py_in (x : atom) (s : pyset) : bool := existsb (py_eq x) s.

(** [s.add(x)]: no change when an equal element is present.  A new
    element goes last, so the model iterates a set in insertion order;
    CPython's order depends on hashes instead. *)
Definition py_add (x : atom) (s : pyset) : pyset :=
  if py_in x s then s else s ++ [x].

(** [set(iterable)] over hashable elements. *)
Definition py_set_of_list (l : list atom) : pyset :=
  fold_left (fun s y => py_add y s) l [].

(** Exceptions the embedded code can raise. *)
Inductive exc : Type :=
| TypeError
| AttributeError
| OSError
| JSONDecodeError.

(** Results of Python code that may raise. *)
Inductive res (A : Type) : Type :=
| Ok (a : A)
| Raise (e : exc).
Arguments Ok {A} a.
Arguments Raise {A} e.

Definition bind {A B} (r : res A) (f : A -> res B) : res B :=
  match r with
  | Ok a => f a
  | Raise e => Raise e
  end.

Notation "x <- r ;; k" := (bind r (fun x => k))
  (at level 61, r at next level, right associativity).

(** ** JSON documents and the ledger file *)

(** JSON values as [json.load] returns them (numbers restricted to
    integers; objects keep their keys in document order). *)
Inductive json : Type :=
| JNull
| JBool (b : bool)
| JNum (z : Z)
| JStr (s : string)
| JArr (l : list json)
| JObj (kvs : list (string * json)).

(** The state of [PROCESSED_FILE] on disk: absent, present but not
    readable as text ([open] or decoding fails), present with text that is
    not JSON, or present with text that [json.load] parses to [j]. *)
Inductive storage : Type :=
| Missing
| Unreadable
| Garbage
| Stored (j : json).

(** [PROCESSED_FILE.exists()] *)
Definition file_exists (st : storage) : bool :=
  match st with
  | Missing => false
  | _ => true
  end.

(** [json.load(open(PROCESSED_FILE))] *)
Definition json_load (st : storage) : res json :=
  match st with
  | Missing | Unreadable => Raise OSError
  | Garbage => Raise JSONDecodeError
  | Stored j => Ok j
  end.

(** Python [dict] built by [json.load]: a repeated key keeps its last
    value. *)
Fixpoint obj_lookup (k : string) (kvs : list (string * json)) : option json :=
  match kvs with
  | [] => None
  | (k', v) :: rest =>
      match obj_lookup k rest with
      | Some w => Some w
      | None => if String.eqb k k' then Some v else None
      end
  end.

(** [data.get(k, [])]: only dicts have [.get]. *)
Definition py_get (data : json) (k : string) : res json :=
  match data with
  | JObj kvs =>
      match obj_lookup k kvs with
      | Some v => Ok v
      | None => Ok (JArr [])
      end
  | _ => Raise AttributeError
  end.

(** A JSON value as a set element: lists and dicts are unhashable. *)
Definition atom_of_json (j : json) : res atom :=
  match j with
  | JNull => Ok ANone
  | JBool b => Ok (ABool b)
  | JNum z => Ok (AInt z)
  | JStr s => Ok (AStr s)
  | JArr _ | JObj _ => Raise TypeError
  end.

Fixpoint atoms_of_jsons (l : list json) : res (list atom) :=
  match l with
  | [] => Ok []
  | j :: rest =>
      a <- atom_of_json j ;;
      r <- atoms_of_jsons rest ;;
      Ok (a :: r)
  end.

Fixpoint chars_of (s : string) : list atom :=
  match s with
  | EmptyString => []
  | String c rest => AStr (String c EmptyString) :: chars_of rest
  end.

Fixpoint dict_keys (kvs : list (string * json)) : list atom :=
  match kvs with
  | [] => []
  | (k, _) :: rest => AStr k :: dict_keys rest
  end.

(** [set(v)] on a value produced by [json.load]: iterating a list, the
    characters of a string, the keys of a dict; scalars are not
    iterable. *)
Definition py_set (v : json) : res pyset :=
  match v with
  | JArr l => xs <- atoms_of_jsons l ;; Ok (py_set_of_list xs)
  | JStr s => Ok (py_set_of_list (chars_of s))
  | JObj kvs => Ok (py_set_of_list (dict_keys kvs))
  | JNull | JBool _ | JNum _ => Raise TypeError
  end.

(** [self.processed_interactions]: the two sets of the ledger. *)
Record ledger : Type := mk_ledger {
  replied_to : pyset;
  commented_reposts : pyset
}.

Definition empty_ledger : ledger := mk_ledger [] [].

(** The two interaction kinds, with the key of their set. *)
Inductive kind : Type := Reply | Repost.

Definition ledger_set (k : kind) (l : ledger) : pyset :=
  match k with
  | Reply => replied_to l
  | Repost => commented_reposts l
  end.

(** [id in self.processed_interactions[key]] *)
Definition has_acted (k : kind) (x : atom) (l : ledger) : bool :=
  py_in x (ledger_set k l).

(** [self.processed_interactions[key].add(id)] *)
Definition record_acted (k : kind) (x : atom) (l : ledger) : ledger :=
  match k with
  | Reply => mk_ledger (py_add x (replied_to l)) (commented_reposts l)
  | Repost => mk_ledger (replied_to l) (py_add x (commented_reposts l))
  end.

(** [load_processed_interactions] *)
Definition load_processed_interactions (st : storage) : res ledger :=
  if file_exists st then
    let body :=
      data <- json_load st ;;
      r <- py_get data "replied_to"%string ;;
      r' <- py_set r ;;
      c <- py_get data "commented_reposts"%string ;;
      c' <- py_set c ;;
      Ok (mk_ledger r' c') in
    match body with
    | Ok l => Ok l
    | Raise _ => Ok empty_ledger   (* except Exception: log, fall through *)
    end
  else Ok empty_ledger.

(** [json.dump] of a set element. *)
Definition json_of_atom (a : atom) : json :=
  match a with
  | ANone => JNull
  | ABool b => JBool b
  | AInt z => JNum z
  | AStr s => JStr s
  end.

(** Outcome of writing the file: [open(..., "w")] fails and leaves the
    file as it was, or it succeeds (truncating the file) and [json.dump]
    then fails, leaving a partial text, or everything succeeds. *)
Inductive write_outcome : Type := WriteOk | OpenFails | DumpFails.

(** [save_processed_interactions]: the document written is
    [{"replied_to": [...], "commented_reposts": [...]}], each list being
    [list(set)] in the set's iteration order. *)
Definition save_processed_interactions (l : ledger) (w : write_outcome)
    (st : storage) : storage :=
  match w with
  | WriteOk =>
      Stored (JObj [("replied_to"%string, JArr (map json_of_atom (replied_to l)));
                    ("commented_reposts"%string,
                       JArr (map json_of_atom (commented_reposts l)))])
  | OpenFails => st
  | DumpFails => Garbage
  end.

(** ** Configuration *)

(** [ENGAGEMENT_CONFIG], the entries the cycle reads. *)
Record config : Type := mk_config {
  max_replies_per_check : Z;
  max_repost_comments_per_check : Z;
  tweets_cache_minutes : Z;
  blacklist_keywords : list string
}.

Definition max_per_check (cfg : config) (k : kind) : Z :=
  match k with
  | Reply => max_replies_per_check cfg
  | Repost => max_repost_comments_per_check cfg
  end.

(** ** Keyword blacklist *)

(** [str.lower] on ASCII text. *)
Definition ascii_lower (c : ascii) : ascii :=
  let n := nat_of_ascii c in
  if (65 <=? n)%nat && (n <=? 90)%nat then ascii_of_nat (n + 32) else c.

Fixpoint str_lower (s : string) : string :=
  match s with
  | EmptyString => EmptyString
  | String c rest => String (ascii_lower c) (str_lower rest)
  end.

Fixpoint str_prefix (p s : string) : bool :=
  match p, s with
  | EmptyString, _ => true
  | String _ _, EmptyString => false
  | String c p', String d s' => Ascii.eqb c d && str_prefix p' s'
  end.

(** Python's [needle in hay] on strings. *)
Fixpoint str_contains (needle hay : string) : bool :=
  str_prefix needle hay ||
  match hay with
  | EmptyString => false
  | String _ rest => str_contains needle rest
  end.

(** [contains_blacklisted_keywords] *)
Definition contains_blacklisted_keywords (kws : list string) (text : string)
    : bool :=
  let text_lower := str_lower text in
  existsb (fun keyword => str_contains keyword text_lower) kws.

(** ** Tweets and the tweets cache *)

(** The fields of a tweepy [Tweet] the bot reads; times are seconds on the
    naive clock [created_at.replace(tzinfo=None)] is compared on. *)
Record tweet : Type := mk_tweet {
  tw_id : Z;
  tw_text : string;
  tw_author_id : Z;
  tw_created_at : option Z;
  tw_conversation_id : Z
}.

(** [self.tweets_cache] *)
Record cache : Type := mk_cache {
  cache_data : option (list tweet);
  cache_timestamp : option Z;
  cache_duration_minutes : Z
}.

(** [clear_tweets_cache] *)
Definition clear_tweets_cache (c : cache) : cache :=
  mk_cache None None (cache_duration_minutes c).

(** [is_cache_valid] at time [now]. *)
Definition is_cache_valid (now : Z) (c : cache) : bool :=
  match cache_data c, cache_timestamp c with
  | Some _, Some ts => (now - ts <? cache_duration_minutes c * 60)%Z
  | _, _ => false
  end.

(** The filter loop: keep [tweet] when [tweet.created_at and
    tweet.created_at.replace(tzinfo=None) >= since_time]. *)
Definition recent_filter (since_time : Z) (tws : list tweet) : list tweet :=
  filter (fun t => match tw_created_at t with
                   | Some ca => (since_time <=? ca)%Z
                   | None => false
                   end) tws.

(** Answer of [self.client.get_users_tweets(...)]: it raises, or returns a
    response whose [.data] is [None] or a list. *)
Inductive fetch_outcome : Type :=
| FetchRaises
| FetchOk (data : option (list tweet)).

(** [get_recent_bot_tweets(hours)] at time [now]; [fetch] is what the API
    call would answer if it is made.  Returns the result and the new
    cache. *)
Definition get_recent_bot_tweets (now hours : Z) (fetch : fetch_outcome)
    (c : cache) : res (list tweet) * cache :=
  if is_cache_valid now c then
    let since_time := (now - hours * 3600)%Z in
    match cache_data c with
    | Some cached => (Ok (recent_filter since_time cached), c)
    | None => (Ok [], c)   (* excluded by is_cache_valid *)
    end
  else
    let since_time := (now - hours * 3600)%Z in
    match fetch with
    | FetchOk None | FetchOk (Some []) => (Ok [], c)   (* not tweets.data *)
    | FetchOk (Some data) =>
        (Ok (recent_filter since_time data),
         mk_cache (Some data) (Some now) (cache_duration_minutes c))
    | FetchRaises =>
        match cache_data c with
        | Some stale =>
            match cache_timestamp c with
            | Some _ => (Ok (recent_filter since_time stale), c)
            | None => (Raise TypeError, c)   (* current_time - None *)
            end
        | None => (Ok [], c)
        end
    end.

(** ** The reply and repost cycles *)

(** Answer of [self.client.search_recent_tweets(...)] for one of the bot's
    tweets. *)
Inductive search_outcome : Type :=
| SearchRaises
| SearchOk (data : option (list tweet)).

(** Observable steps of a cycle: a [create_tweet] call on a candidate
    (with whether it returned), the insertion of an id in a ledger set, and
    the call of [save_processed_interactions]. *)
Inductive event : Type :=
| EPost (k : kind) (id : Z) (ok : bool)
| EAdd (k : kind) (id : Z)
| ESave.

(** What the outside world answers during one cycle. *)
Record env : Type := mk_env {
  engagement_time : bool;            (* is_engagement_time() *)
  env_now : Z;                       (* datetime.now() *)
  env_fetch : fetch_outcome;         (* get_users_tweets *)
  env_search : tweet -> search_outcome;  (* search_recent_tweets per tweet *)
  env_posts : list bool;             (* successive create_tweet calls: true if it returns *)
  env_write : write_outcome          (* writing PROCESSED_FILE *)
}.

(** The bot's mutable state. *)
Record bot : Type := mk_bot {
  bot_user_id : Z;
  processed_interactions : ledger;
  tweets_cache : cache;
  processed_file : storage
}.

(** State threaded through the loops of [process_replies] /
    [process_reposts]. *)
Record cycle_state : Type := mk_cs {
  cs_ledger : ledger;
  cs_count : Z;
  cs_posts : list bool;
  cs_events : list event
}.

(** Next [create_tweet] answer; past the given answers it raises. *)
Definition next_post (ps : list bool) : bool * list bool :=
  match ps with
  | [] => (false, [])
  | b :: rest => (b, rest)
  end.

Section Cycle.
Variable cfg : config.
Variable k : kind.
Variable user_id : Z.

Let max := max_per_check cfg k.

(** One candidate that passed the three skips: generate, post, and on
    success mark as processed and count. *)
Definition act_on (cand : tweet) (s : cycle_state) : cycle_state :=
  let (ok, rest) := next_post (cs_posts s) in
  if ok then
    mk_cs (record_acted k (AInt (tw_id cand)) (cs_ledger s)) (cs_count s + 1)
          rest (cs_events s ++ [EPost k (tw_id cand) true; EAdd k (tw_id cand)])
  else
    mk_cs (cs_ledger s) (cs_count s) rest
          (cs_events s ++ [EPost k (tw_id cand) false]).

(** [for reply in replies.data: ...] *)
Fixpoint candidates_loop (cands : list tweet) (s : cycle_state) : cycle_state :=
  match cands with
  | [] => s
  | cand :: rest =>
      if has_acted k (AInt (tw_id cand)) (cs_ledger s) then candidates_loop rest s
      else if Z.eqb (tw_author_id cand) user_id then candidates_loop rest s
      else if contains_blacklisted_keywords (blacklist_keywords cfg) (tw_text cand)
      then candidates_loop rest s
      else
        let s' := act_on cand s in
        if (max <=? cs_count s')%Z then s' else candidates_loop rest s'
  end.

(** [for tweet in recent_tweets: ...] *)
Fixpoint tweets_loop (search : tweet -> search_outcome) (tws : list tweet)
    (s : cycle_state) : cycle_state :=
  match tws with
  | [] => s
  | tw :: rest =>
      if (max <=? cs_count s)%Z then s
      else
        match search tw with
        | SearchRaises => tweets_loop search rest s
        | SearchOk None | SearchOk (Some []) => tweets_loop search rest s
        | SearchOk (Some cands) => tweets_loop search rest (candidates_loop cands s)
        end
  end.

End Cycle.

(** [process_replies] ([k = Reply]) and [process_reposts] ([k = Repost]):
    the new bot state and the events of the cycle. *)
Definition process_interactions (cfg : config) (k : kind) (e : env) (b : bot)
    : bot * list event :=
  if negb (engagement_time e) then (b, [])
  else
    let (r, c') := get_recent_bot_tweets (env_now e) 24 (env_fetch e)
                                         (tweets_cache b) in
    match r with
    | Raise _ =>   (* outer except: logged *)
        (mk_bot (bot_user_id b) (processed_interactions b) c' (processed_file b), [])
    | Ok recent_tweets =>
        let s := tweets_loop cfg k (bot_user_id b) (env_search e) recent_tweets
                   (mk_cs (processed_interactions b) 0 (env_posts e) []) in
        (mk_bot (bot_user_id b) (cs_ledger s) c'
                (save_processed_interactions (cs_ledger s) (env_write e)
                                             (processed_file b)),
         cs_events s ++ [ESave])
    end.

(** [cleanup_old_interactions]: a set of more than 1000 ids is cut down to
    500 of its ids, [set(list(s)[-500:])]; the file is then written.
    Which 500 survive depends on the set's iteration order, which the
    properties below do not rely on. *)
Definition trim_set (s : pyset) : pyset :=
  if (1000 <? List.length s)%nat then py_set_of_list (skipn (List.length s - 500) s)
  else s.

Definition cleanup_ledger (l : ledger) : ledger :=
  mk_ledger (trim_set (replied_to l)) (trim_set (commented_reposts l)).

Definition cleanup_old_interactions (w : write_outcome) (b : bot) : bot :=
  let l := cleanup_ledger (processed_interactions b) in
  mk_bot (bot_user_id b) l (tweets_cache b)
         (save_processed_interactions l w (processed_file b)).

(** Operations on the in-memory ledger over the process's life: an
    insertion by a cycle, or a run of the cleanup job. *)
Inductive ledger_op : Type :=
| OpRecord (k : kind) (x : atom)
| OpCleanup.

Definition apply_op (l : ledger) (o : ledger_op) : ledger :=
  match o with
  | OpRecord k x => record_acted k x l
  | OpCleanup => cleanup_ledger l
  end.

Definition apply_ops (l : ledger) (ops : list ledger_op) : ledger :=
  fold_left apply_op ops l.

(** ** Scheduler *)

(** Number of running threads of each task.  [start_scheduler] registers
    [lambda: threading.Thread(target=self.process_replies, daemon=True).start()]
    (and the same for [process_reposts]): each fire starts a thread. *)
Record sched : Type := mk_sched {
  running_replies : nat;
  running_reposts : nat
}.

Definition running (k : kind) (s : sched) : nat :=
  match k with
  | Reply => running_replies s
  | Repost => running_reposts s
  end.

Inductive sched_event : Type :=
| Fire (k : kind)       (* schedule.run_pending() runs the job of kind k *)
| Finish (k : kind).    (* a thread of kind k returns *)

Definition sched_step (s : sched) (ev : sched_event) : sched :=
  match ev with
  | Fire Reply => mk_sched (S (running_replies s)) (running_reposts s)
  | Fire Repost => mk_sched (running_replies s) (S (running_reposts s))
  | Finish Reply => mk_sched (pred (running_replies s)) (running_reposts s)
  | Finish Repost => mk_sched (running_replies s) (pred (running_reposts s))
  end.

Definition sched_run (s : sched) (evs : list sched_event) : sched :=
  fold_left sched_step evs s.

Definition sched_init : sched := mk_sched 0 0.

(** ** Definitions used by the properties *)

Definition cache5 : cache :=
  mk_cache (Some [mk_tweet 1 "apod" 9 (Some 0%Z) 1]) (Some 0%Z) 15.

(** A cache holding one tweet, fetched at time 0, looked up at time 2000
    (past its 15 minutes). *)
Definition cache6 : cache := cache5.

Definition kind_eqb (k k' : kind) : bool :=
  match k, k' with
  | Reply, Reply | Repost, Repost => true
  | _, _ => false
  end.

(** The ledger after a run of successful actions on [ids]. *)
Definition record_all (k : kind) (ids : list Z) (l : ledger) : ledger :=
  fold_left (fun l x => record_acted k (AInt x) l) ids l.

(** The events of one [create_tweet] attempt on candidate [fst a], which
    returned iff [snd a]. *)
Definition attempt_events (k : kind) (a : Z * bool) : list event :=
  if snd a then [EPost k (fst a) true; EAdd k (fst a)]
  else [EPost k (fst a) false].

Definition acted_ids (attempts : list (Z * bool)) : list Z :=
  map fst (filter snd attempts).

(** What a loop did, from state [s] to state [s']: a sequence of attempts
    on candidates none of which was in the ledger at [s]; each success
    inserted its id in the ledger and counted once. *)
Definition loop_shape (k : kind) (s s' : cycle_state)
    (attempts : list (Z * bool)) : Prop :=
  cs_events s' = cs_events s ++ List.concat (map (attempt_events k) attempts) /\
  cs_ledger s' = record_all k (acted_ids attempts) (cs_ledger s) /\
  cs_count s' = (cs_count s + Z.of_nat (List.length (acted_ids attempts)))%Z /\
  Forall (fun a => has_acted k (AInt (fst a)) (cs_ledger s) = false) attempts.

(** What one call of [process_replies] / [process_reposts] does: either
    nothing (outside the engagement hours, or the lookup of the bot's
    tweets raised), or a run of [create_tweet] attempts on candidates not
    in the ledger, each success followed at once by the insertion of its
    id, then one save of the ledger as it stands; at most
    [max(0, max_per_check)] attempts succeed. *)
Definition cycle_shape (cfg : config) (k : kind) (e : env) (b b' : bot)
    (ev : list event) (attempts : list (Z * bool)) : Prop :=
  (ev = [] /\ attempts = [] /\
   processed_interactions b' = processed_interactions b /\
   processed_file b' = processed_file b)
  \/
  (ev = List.concat (map (attempt_events k) attempts) ++ [ESave] /\
   processed_interactions b' =
     record_all k (acted_ids attempts) (processed_interactions b) /\
   processed_file b' =
     save_processed_interactions (processed_interactions b') (env_write e)
                                 (processed_file b) /\
   (Z.of_nat (List.length (acted_ids attempts)) <= Z.max 0 (max_per_check cfg k))%Z /\
   Forall (fun a => has_acted k (AInt (fst a)) (processed_interactions b) = false)
          attempts).

(** Largest number of ids inserted since the last save, over all points of
    a trace; [pending] ids are unsaved at its start. *)
Fixpoint unsaved_peak (pending : nat) (ev : list event) : nat :=
  match ev with
  | [] => pending
  | EAdd _ _ :: rest => unsaved_peak (S pending) rest
  | ESave :: rest => Nat.max pending (unsaved_peak 0 rest)
  | EPost _ _ _ :: rest => unsaved_peak pending rest
  end.

(** Number of [EAdd] events: the value [reply_count] / [comment_count]
    reaches. *)
Definition count_adds (ev : list event) : nat :=
  List.length (filter (fun x => match x with EAdd _ _ => true | _ => false end) ev).

(** The default configuration of [ENGAGEMENT_CONFIG]. *)
Definition default_config : config :=
  mk_config 5 3 15 ["spam"; "bot"; "fake"; "scam"; "crypto"; "nft"; "buy now"]%string.

Definition apod_tweet : tweet := mk_tweet 1 "Today's APOD" 99 (Some 1000%Z) 1.

Definition reply_of (id : Z) : tweet := mk_tweet id "Beautiful nebula" 7 (Some 1500%Z) 1.

(** A cycle at time 2000 inside the engagement hours: the bot's tweets are
    [[apod_tweet]], each search answers [cands], every [create_tweet]
    returns and the file is written. *)
Definition env_with (cands : list tweet) : env :=
  mk_env true 2000 (FetchOk (Some [apod_tweet])) (fun _ => SearchOk (Some cands))
         [true; true; true; true; true] WriteOk.

(** The bot (user id 99) with ledger [l], an empty cache and no file. *)
Definition bot_with (l : ledger) : bot := mk_bot 99 l (mk_cache None None 15) Missing.

(** A ledger whose reply set holds the 1001 ids 0..1000, iterated in that
    order. *)
Definition big_ledger : ledger :=
  mk_ledger (map (fun n => AInt (Z.of_nat n)) (seq 0 1001)) [].

(** A candidate that passes the three skips of the loop. *)
Definition eligible (cfg : config) (k : kind) (uid : Z) (l : ledger) (c : tweet)
    : bool :=
  negb (has_acted k (AInt (tw_id c)) l) && negb (tw_author_id c =? uid)%Z &&
  negb (contains_blacklisted_keywords (blacklist_keywords cfg) (tw_text c)).

Definition config8 : config :=
  mk_config 2 3 15 ["spam"; "bot"; "fake"; "scam"; "crypto"; "nft"; "buy now"]%string.

Definition env8 : env :=
  env_with [reply_of 11; reply_of 12; reply_of 13; reply_of 14; reply_of 15].

Definition bot8 : bot := bot_with empty_ledger.

(** Case-insensitive containment on ASCII text, as the spec states the
    blacklist test: the keyword occurs in the text when both are
    lowercased. *)
Definition contains_ci (keyword text : string) : bool :=
  str_contains (str_lower keyword) (str_lower text).

(** C9 as the code has it: every fire of a kind's job starts one more
    thread of that kind, however many are running; the other kind is not
    affected. *)
Definition other_kind (k : kind) : kind :=
  match k with
  | Reply => Repost
  | Repost => Reply
  end.

(** A list with no two [py_eq]-equal elements: what a Python set holds. *)
Fixpoint py_nodup (s : pyset) : bool :=
  match s with
  | [] => true
  | x :: rest => negb (py_in x rest) && py_nodup rest
  end.

(** A set of 1001 distinct ids, iterated in increasing order. *)
Definition ids_1001 : pyset := map (fun n => AInt (Z.of_nat n)) (seq 0 1001).

(** The shape of the cache the bot keeps: a snapshot always comes with
    its timestamp ([get_recent_bot_tweets] sets both, [clear_tweets_cache]
    clears both). *)
Definition cache_wf (c : cache) : bool :=
  match cache_data c, cache_timestamp c with
  | Some _, None => false
  | _, _ => true
  end.

(** Python's [str.split(sep)] for a one-character separator: the pieces
    between separators, always at least one. *)
Fixpoint py_split_acc (sep : ascii) (s cur : string) : list string :=
  match s with
  | EmptyString => [cur]
  | String c rest =>
      if Ascii.eqb c sep then cur :: py_split_acc sep rest EmptyString
      else py_split_acc sep rest (String.append cur (String c EmptyString))
  end.

Definition py_split (sep : ascii) (s : string) : list string :=
  py_split_acc sep s EmptyString.

(** ASCII characters for which [str.isspace()] holds. *)
Definition is_py_space (c : ascii) : bool :=
  let n := nat_of_ascii c in
  (n =? 32)%nat || ((9 <=? n)%nat && (n <=? 13)%nat) ||
  ((28 <=? n)%nat && (n <=? 31)%nat).

Fixpoint py_lstrip (s : string) : string :=
  match s with
  | EmptyString => EmptyString
  | String c rest => if is_py_space c then py_lstrip rest else s
  end.

Fixpoint py_rstrip (s : string) : string :=
  match s with
  | EmptyString => EmptyString
  | String c rest =>
      let rest' := py_rstrip rest in
      match rest' with
      | EmptyString => if is_py_space c then EmptyString else String c EmptyString
      | _ => String c rest'
      end
  end.

(** [str.strip()] *)
Definition py_strip (s : string) : string := py_rstrip (py_lstrip s).

(** [parse_blacklist_keywords], given the value of [BLACKLIST_KEYWORDS]
    (or its default), which [config] returns as a [str]. *)
Definition parse_blacklist_keywords (keywords_str : string) : list string :=
  map py_strip (py_split "," keywords_str).

Definition is_upper (c : ascii) : bool :=
  let n := nat_of_ascii c in (65 <=? n)%nat && (n <=? 90)%nat.

Fixpoint has_upper (s : string) : bool :=
  match s with
  | EmptyString => false
  | String c rest => is_upper c || has_upper rest
  end.

(** [load_processed_interactions] of src/api_server.py: the JSON document
    of the file as it is, or a default document when the file is missing
    or cannot be read as JSON. *)
Definition api_default_processed : json :=
  JObj [("replied_to"%string, JArr []); ("commented_reposts"%string, JArr [])].

Definition api_load_processed_interactions (st : storage) : json :=
  if file_exists st then
    match json_load st with
    | Ok j => j
    | Raise _ => api_default_processed   (* except Exception: log *)
    end
  else api_default_processed.

(** [len(v)] on a value produced by [json.load]. *)
Definition py_len (v : json) : res nat :=
  match v with
  | JArr l => Ok (List.length l)
  | JStr s => Ok (String.length s)
  | JObj kvs => Ok (List.length (py_set_of_list (dict_keys kvs)))
  | JNull | JBool _ | JNum _ => Raise TypeError
  end.

(** The two counts of [get_stats] ([/api/stats]). *)
Definition get_stats_counts (st : storage) : res (nat * nat) :=
  let processed := api_load_processed_interactions st in
  r <- py_get processed "replied_to" ;;
  nr <- py_len r ;;
  c <- py_get processed "commented_reposts" ;;
  nc <- py_len c ;;
  Ok (nr, nc).

(** The [bot_replied] / [bot_commented] marks of [get_tweet_engagement]
    for the ids of the replies and reposts it fetched: the part of the
    route after its [if not twitter_api] check. *)
Definition engagement_marks (st : storage) (reply_ids repost_ids : list Z)
    : res (list bool * list bool) :=
  let processed := api_load_processed_interactions st in
  r <- py_get processed "replied_to" ;;
  processed_replies <- py_set r ;;
  c <- py_get processed "commented_reposts" ;;
  processed_reposts <- py_set c ;;
  Ok (map (fun x => py_in (AInt x) processed_replies) reply_ids,
      map (fun x => py_in (AInt x) processed_reposts) repost_ids).



(** What [get_tweet_engagement] returns: the 500 answer when
    [twitter_api] is [None], or the marked replies and reposts. *)
Inductive engagement_answer : Type :=
| ApiUnavailable
| Marked (marks : list bool * list bool).

(** [get_tweet_engagement]; [twitter_api_ok] is [twitter_api is not None],
    and [reply_ids] / [repost_ids] are the ids of what
    [get_replies_for_tweet] and [get_reposts_for_tweet] returned (both
    catch their errors and return [[]]). *)
Definition get_tweet_engagement (twitter_api_ok : bool) (st : storage)
    (reply_ids repost_ids : list Z) : res engagement_answer :=
  if negb twitter_api_ok then Ok ApiUnavailable
  else
    m <- engagement_marks st reply_ids repost_ids ;;
    Ok (Marked m).

(** * Properties *)

(** ** Python equality and sets *)

Lemma py_eq_refl : forall a, py_eq a a = true.
Proof.
  destruct a as [|b|z|s]; simpl; auto.
  - apply Z.eqb_refl.
  - apply Z.eqb_refl.
  - apply String.eqb_refl.
Qed.

Lemma atom_num_eq : forall a b x,
  atom_num a = Some x -> atom_num b = Some x -> py_eq a b = true.
Proof.
  intros [|[]|za|sa] [|[]|zb|sb] x Ha Hb; simpl in *;
    try discriminate; inversion Ha; inversion Hb; subst;
    try apply Z.eqb_refl; try reflexivity; congruence.
Qed.

(** [py_eq] holds exactly when both are [None], both the same string, or
    both the same number. *)
Lemma py_eq_spec : forall a b,
  py_eq a b = true <->
  (a = ANone /\ b = ANone) \/
  (exists s, a = AStr s /\ b = AStr s) \/
  (exists x, atom_num a = Some x /\ atom_num b = Some x).
Proof.
  intros a b; split.
  - destruct a as [|ba|za|sa], b as [|bb|zb|sb]; simpl; intro H;
      try discriminate; auto;
      try (apply String.eqb_eq in H; subst; right; left; eauto; fail);
      apply Z.eqb_eq in H; right; right; eexists;
      (split; [reflexivity | rewrite H; reflexivity]).
  - intros [[-> ->]|[[s [-> ->]]|[x [Ha Hb]]]].
    + reflexivity.
    + apply py_eq_refl.
    + eapply atom_num_eq; eauto.
Qed.

Lemma atom_num_str : forall a s, a = AStr s -> atom_num a = None.
Proof. intros a s ->; reflexivity. Qed.

Lemma py_eq_sym : forall a b, py_eq a b = py_eq b a.
Proof.
  intros a b; apply eq_true_iff_eq; rewrite !py_eq_spec.
  firstorder.
Qed.

Lemma py_eq_trans : forall a b c,
  py_eq a b = true -> py_eq b c = true -> py_eq a c = true.
Proof.
  intros a b c Hab Hbc; apply py_eq_spec in Hab, Hbc; apply py_eq_spec.
  destruct Hab as [[-> ->]|[[s [-> ->]]|[x [Ha Hb]]]];
    destruct Hbc as [[Hb' ->]|[[s' [Hb' ->]]|[y [Hb' Hc]]]];
    try discriminate; subst; simpl in *; try discriminate; auto.
  - inversion Hb'; subst; right; left; eauto.
  - rewrite Hb in Hb'; inversion Hb'; subst; right; right; eauto.
Qed.

Lemma py_in_add : forall x y s,
  py_in x (py_add y s) = py_in x s || py_eq x y.
Proof.
  intros x y s; unfold py_add.
  destruct (py_in y s) eqn:Hy.
  - destruct (py_eq x y) eqn:Hxy; [|now rewrite orb_false_r].
    rewrite orb_true_r.
    unfold py_in in *; apply existsb_exists in Hy as [z [Hz Hyz]].
    apply existsb_exists; exists z; split; auto.
    eapply py_eq_trans; eauto.
  - unfold py_in; rewrite existsb_app; simpl; now rewrite orb_false_r.
Qed.

Lemma py_in_fold_add : forall x l s,
  py_in x (fold_left (fun s y => py_add y s) l s) = py_in x s || py_in x l.
Proof.
  intros x l; induction l as [|y l IH]; intros s; simpl.
  - now rewrite orb_false_r.
  - rewrite IH, py_in_add; unfold py_in; simpl.
    now rewrite orb_assoc.
Qed.

Lemma py_in_set_of_list : forall x l, py_in x (py_set_of_list l) = py_in x l.
Proof. intros x l; unfold py_set_of_list; now rewrite py_in_fold_add. Qed.

Lemma py_add_present : forall x s, py_in x s = true -> py_add x s = s.
Proof. intros x s H; unfold py_add; now rewrite H. Qed.

(** ** Loading and saving the ledger file *)

Lemma atoms_of_jsons_dump : forall xs,
  atoms_of_jsons (map json_of_atom xs) = Ok xs.
Proof.
  induction xs as [|a xs IH]; simpl; [reflexivity|].
  rewrite IH; destruct a; reflexivity.
Qed.

(** C3: writing the ledger [l] to the file and reading it back gives a
    ledger whose [hasActed] answers are those of [l], for both kinds and
    every id (so in particular for every id recorded in [l]). *)
Theorem save_load_roundtrip : forall (l : ledger) (st : storage),
  exists l',
    load_processed_interactions (save_processed_interactions l WriteOk st) = Ok l' /\
    forall k x, has_acted k x l' = has_acted k x l.
Proof.
  intros [r c] st.
  unfold load_processed_interactions, save_processed_interactions; simpl.
  rewrite !atoms_of_jsons_dump; simpl.
  eexists; split; [reflexivity|].
  intros [] x; unfold has_acted; simpl; apply py_in_set_of_list.
Qed.

(** C4: [load_processed_interactions] returns a ledger on every state of
    the file, and the empty ledger whenever the file cannot be read as JSON:
    missing, unreadable, or with text that is not JSON. *)
Theorem load_fails_soft : forall st : storage,
  (exists l, load_processed_interactions st = Ok l) /\
  match json_load st with
  | Raise _ => load_processed_interactions st = Ok empty_ledger
  | Ok _ => True
  end.
Proof.
  intros st; split.
  - unfold load_processed_interactions.
    destruct (file_exists st); [|eauto].
    match goal with |- context [match ?b with Ok _ => _ | Raise _ => _ end] =>
      destruct b end; eauto.
  - destruct st; simpl; auto.
Qed.

(** ** The tweets cache *)


(** C5: when the cache is not valid (so the API is called) and the call
    raises while a snapshot with its timestamp is held, the stale snapshot
    filtered to the last [hours] hours is returned and the cache is left as
    it was. *)
Theorem stale_snapshot_on_fetch_failure :
  forall (now hours : Z) (c : cache) (stale : list tweet) (ts : Z),
  is_cache_valid now c = false ->
  cache_data c = Some stale ->
  cache_timestamp c = Some ts ->
  get_recent_bot_tweets now hours FetchRaises c =
    (Ok (recent_filter (now - hours * 3600) stale), c).
Proof.
  intros now hours c stale ts Hv Hd Ht.
  unfold get_recent_bot_tweets; rewrite Hv, Hd, Ht; reflexivity.
Qed.

Lemma stale_snapshot_on_fetch_failure_witness :
  is_cache_valid 2000 cache5 = false /\
  get_recent_bot_tweets 2000 24 FetchRaises cache5 =
    (Ok (recent_filter (2000 - 24 * 3600) [mk_tweet 1 "apod" 9 (Some 0%Z) 1]),
     cache5).
Proof.
  split; [reflexivity|].
  apply (stale_snapshot_on_fetch_failure 2000 24 cache5
           [mk_tweet 1 "apod" 9 (Some 0%Z) 1] 0); reflexivity.
Defined.

(** C6 fails: a successful call whose [.data] is empty does not replace
    the snapshot; the old snapshot and its timestamp stay. *)
Lemma empty_fetch_keeps_snapshot :
  let r := get_recent_bot_tweets 2000 24 (FetchOk (Some [])) cache6 in
  fst r = Ok [] /\ cache_data (snd r) <> Some [] /\
  cache_timestamp (snd r) <> Some 2000%Z.
Proof.
  simpl; split; [reflexivity|]; split; discriminate.
Qed.

(** C6 as the code has it: when the API is called and returns a non-empty
    [.data], the snapshot becomes exactly that data with timestamp [now];
    when it returns no data ([None] or empty), the cache is left as it
    was and nothing is returned. *)
Theorem refill_replaces_snapshot :
  forall (now hours : Z) (c : cache) (data : list tweet),
  is_cache_valid now c = false ->
  get_recent_bot_tweets now hours (FetchOk (Some data)) c =
    (Ok (recent_filter (now - hours * 3600) data),
     match data with
     | [] => c
     | _ :: _ => mk_cache (Some data) (Some now) (cache_duration_minutes c)
     end) /\
  get_recent_bot_tweets now hours (FetchOk None) c = (Ok [], c).
Proof.
  intros now hours c data Hv.
  unfold get_recent_bot_tweets; rewrite Hv.
  destruct data; split; reflexivity.
Qed.

Lemma refill_replaces_snapshot_witness :
  is_cache_valid 2000 cache6 = false /\
  get_recent_bot_tweets 2000 24 (FetchOk (Some [mk_tweet 2 "m31" 9 None 2])) cache6 =
    (Ok (recent_filter (2000 - 24 * 3600) [mk_tweet 2 "m31" 9 None 2]),
     mk_cache (Some [mk_tweet 2 "m31" 9 None 2]) (Some 2000%Z) 15) /\
  get_recent_bot_tweets 2000 24 (FetchOk None) cache6 = (Ok [], cache6).
Proof.
  split; [reflexivity|].
  apply (refill_replaces_snapshot 2000 24 cache6 [mk_tweet 2 "m31" 9 None 2]).
  reflexivity.
Defined.


(** ** Ledger growth during a cycle *)

Lemma has_acted_record : forall k k' x y l,
  has_acted k' y (record_acted k x l) =
  has_acted k' y l || (kind_eqb k k' && py_eq y x).
Proof.
  intros [] [] x y l; unfold has_acted; simpl;
    try rewrite py_in_add; try rewrite orb_false_r; reflexivity.
Qed.

Lemma record_all_mono : forall k k' y ids l,
  has_acted k' y l = true -> has_acted k' y (record_all k ids l) = true.
Proof.
  intros k k' y ids; induction ids as [|x ids IH]; intros l H; simpl; auto.
  apply IH; rewrite has_acted_record, H; reflexivity.
Qed.

Lemma loop_shape_nil : forall k s, loop_shape k s s [].
Proof.
  intros k s; repeat split; simpl; auto.
  - now rewrite app_nil_r.
  - lia.
Qed.

Lemma loop_shape_act : forall k s cand s'' attempts,
  has_acted k (AInt (tw_id cand)) (cs_ledger s) = false ->
  loop_shape k (act_on k cand s) s'' attempts ->
  exists ok, loop_shape k s s'' ((tw_id cand, ok) :: attempts).
Proof.
  intros k s cand s'' attempts Hnew [He [Hl [Hc Hf]]].
  unfold act_on in *; destruct (next_post (cs_posts s)) as [ok rest].
  exists ok; destruct ok; simpl in *.
  - repeat split.
    + rewrite He, <- app_assoc; reflexivity.
    + exact Hl.
    + rewrite Hc; unfold acted_ids; simpl filter; simpl List.length; lia.
    + constructor; [exact Hnew|].
      eapply Forall_impl; [|exact Hf]; intros a Ha; simpl in Ha.
      rewrite has_acted_record in Ha; apply orb_false_iff in Ha; tauto.
  - repeat split.
    + rewrite He, <- app_assoc; reflexivity.
    + exact Hl.
    + exact Hc.
    + constructor; assumption.
Qed.

Lemma candidates_loop_shape : forall cfg k uid cands s,
  exists attempts, loop_shape k s (candidates_loop cfg k uid cands s) attempts.
Proof.
  intros cfg k uid cands; induction cands as [|cand rest IH]; intros s; simpl.
  - exists []; apply loop_shape_nil.
  - destruct (has_acted k (AInt (tw_id cand)) (cs_ledger s)) eqn:Hh; [apply IH|].
    destruct (tw_author_id cand =? uid)%Z; [apply IH|].
    destruct (contains_blacklisted_keywords _ _); [apply IH|].
    destruct (_ <=? cs_count (act_on k cand s))%Z.
    + destruct (loop_shape_act k s cand (act_on k cand s) [] Hh
                  (loop_shape_nil k _)) as [ok H]; eauto.
    + destruct (IH (act_on k cand s)) as [attempts Ha].
      destruct (loop_shape_act k s cand _ attempts Hh Ha) as [ok H]; eauto.
Qed.

Lemma record_all_app : forall k ids1 ids2 l,
  record_all k (ids1 ++ ids2) l = record_all k ids2 (record_all k ids1 l).
Proof. intros; unfold record_all; apply fold_left_app. Qed.

Lemma acted_ids_app : forall a1 a2,
  acted_ids (a1 ++ a2) = acted_ids a1 ++ acted_ids a2.
Proof. intros; unfold acted_ids; now rewrite filter_app, map_app. Qed.

Lemma loop_shape_trans : forall k s1 s2 s3 a1 a2,
  loop_shape k s1 s2 a1 -> loop_shape k s2 s3 a2 ->
  loop_shape k s1 s3 (a1 ++ a2).
Proof.
  intros k s1 s2 s3 a1 a2 [He1 [Hl1 [Hc1 Hf1]]] [He2 [Hl2 [Hc2 Hf2]]].
  repeat split.
  - rewrite He2, He1, map_app, concat_app, app_assoc; reflexivity.
  - rewrite Hl2, Hl1, acted_ids_app, record_all_app; reflexivity.
  - rewrite Hc2, Hc1, acted_ids_app, length_app; lia.
  - apply Forall_app; split; [exact Hf1|].
    eapply Forall_impl; [|exact Hf2]; intros a Ha; simpl in Ha.
    rewrite Hl1 in Ha.
    destruct (has_acted k (AInt (fst a)) (cs_ledger s1)) eqn:H; [|reflexivity].
    rewrite (record_all_mono _ _ _ _ _ H) in Ha; discriminate.
Qed.

Lemma tweets_loop_shape : forall cfg k uid search tws s,
  exists attempts, loop_shape k s (tweets_loop cfg k uid search tws s) attempts.
Proof.
  intros cfg k uid search tws; induction tws as [|tw rest IH]; intros s; simpl.
  - exists []; apply loop_shape_nil.
  - destruct (_ <=? cs_count s)%Z; [exists []; apply loop_shape_nil|].
    destruct (search tw) as [|[[|c cs]|]]; try apply IH.
    destruct (candidates_loop_shape cfg k uid (c :: cs) s) as [a1 H1].
    destruct (IH (candidates_loop cfg k uid (c :: cs) s)) as [a2 H2].
    exists (a1 ++ a2); eapply loop_shape_trans; eauto.
Qed.

(** ** Counting actions *)

Lemma act_on_count : forall k cand s,
  cs_count (act_on k cand s) = cs_count s \/
  cs_count (act_on k cand s) = (cs_count s + 1)%Z.
Proof.
  intros k cand s; unfold act_on; destruct (next_post (cs_posts s)) as [[] rest];
    simpl; auto.
Qed.

Lemma candidates_loop_bound : forall cfg k uid cands s,
  (cs_count s < max_per_check cfg k)%Z ->
  (cs_count (candidates_loop cfg k uid cands s) <= max_per_check cfg k)%Z.
Proof.
  intros cfg k uid cands; induction cands as [|cand rest IH]; intros s Hs; simpl.
  - lia.
  - destruct (has_acted _ _ _); [now apply IH|].
    destruct (_ =? uid)%Z; [now apply IH|].
    destruct (contains_blacklisted_keywords _ _); [now apply IH|].
    destruct (max_per_check cfg k <=? cs_count (act_on k cand s))%Z eqn:Hm.
    + destruct (act_on_count k cand s) as [H|H]; rewrite H; lia.
    + apply IH; apply Z.leb_gt in Hm; exact Hm.
Qed.

Lemma tweets_loop_bound : forall cfg k uid search tws s,
  (cs_count s <= max_per_check cfg k)%Z ->
  (cs_count (tweets_loop cfg k uid search tws s) <= max_per_check cfg k)%Z.
Proof.
  intros cfg k uid search tws; induction tws as [|tw rest IH]; intros s Hs; simpl.
  - exact Hs.
  - destruct (max_per_check cfg k <=? cs_count s)%Z eqn:Hm; [exact Hs|].
    apply Z.leb_gt in Hm.
    destruct (search tw) as [|[[|c cs]|]]; try (apply IH; exact Hs).
    apply IH, candidates_loop_bound; exact Hm.
Qed.

Lemma tweets_loop_stop : forall cfg k uid search tws s,
  (max_per_check cfg k <= cs_count s)%Z ->
  tweets_loop cfg k uid search tws s = s.
Proof.
  intros cfg k uid search [|tw rest] s H; simpl; [reflexivity|].
  apply Z.leb_le in H; now rewrite H.
Qed.

(** ** One cycle *)

Lemma process_interactions_shape : forall cfg k e b,
  exists attempts,
    cycle_shape cfg k e b (fst (process_interactions cfg k e b))
                (snd (process_interactions cfg k e b)) attempts.
Proof.
  intros cfg k e b; unfold process_interactions.
  destruct (engagement_time e); simpl;
    [|exists []; left; repeat split; reflexivity].
  destruct (get_recent_bot_tweets _ _ _ _) as [[tws|exn] c'].
  2: { exists []; left; repeat split; reflexivity. }
  set (s0 := mk_cs (processed_interactions b) 0 (env_posts e) []).
  destruct (tweets_loop_shape cfg k (bot_user_id b) (env_search e) tws s0)
    as [attempts [He [Hl [Hc Hf]]]].
  exists attempts; right; simpl.
  rewrite He, Hl; simpl; repeat split; auto.
  destruct (Z.le_gt_cases (max_per_check cfg k) 0) as [Hneg|Hpos].
  - rewrite (tweets_loop_stop cfg k (bot_user_id b) (env_search e) tws s0) in Hc
      by (simpl; lia).
    simpl in Hc; lia.
  - pose proof (tweets_loop_bound cfg k (bot_user_id b) (env_search e) tws s0)
      as Hb; simpl in Hb, Hc; lia.
Qed.

(** ** Event traces *)

Lemma in_attempt_events : forall k k' y ok attempts,
  In (EPost k' y ok) (List.concat (map (attempt_events k) attempts)) ->
  exists a, In a attempts /\ fst a = y.
Proof.
  intros k k' y ok attempts H.
  apply in_concat in H as [evs [Hm Hin]].
  apply in_map_iff in Hm as [a [<- Ha]].
  exists a; split; [exact Ha|].
  unfold attempt_events in Hin; destruct (snd a); simpl in Hin;
    intuition congruence.
Qed.

Lemma unsaved_peak_attempts : forall k attempts p rest,
  unsaved_peak p (List.concat (map (attempt_events k) attempts) ++ rest) =
  unsaved_peak (p + List.length (acted_ids attempts)) rest.
Proof.
  intros k attempts; induction attempts as [|[x ok] a IH]; intros p rest; simpl.
  - now rewrite Nat.add_0_r.
  - unfold acted_ids in *; destruct ok; simpl; rewrite IH; f_equal; lia.
Qed.

Lemma count_adds_attempts : forall k attempts,
  count_adds (List.concat (map (attempt_events k) attempts) ++ [ESave]) =
  List.length (acted_ids attempts).
Proof.
  intros k attempts; unfold count_adds.
  induction attempts as [|[x ok] a IH]; simpl; [reflexivity|].
  unfold acted_ids in *; destruct ok; simpl; rewrite IH; reflexivity.
Qed.

(** ** The ledger over the process's life *)

Lemma apply_ops_records : forall k y l ops,
  has_acted k y l = true ->
  Forall (fun o => o <> OpCleanup) ops ->
  has_acted k y (apply_ops l ops) = true.
Proof.
  intros k y l ops; revert l; induction ops as [|o ops IH]; intros l H Hf;
    simpl; [exact H|].
  inversion Hf as [|? ? Ho Hops]; subst.
  apply IH; [|exact Hops].
  destruct o as [k' x|]; [|congruence]; simpl.
  rewrite has_acted_record, H; reflexivity.
Qed.

Lemma trim_set_small : forall s,
  (List.length s <= 1000)%nat -> trim_set s = s.
Proof.
  intros s H; unfold trim_set.
  destruct (1000 <? List.length s)%nat eqn:E; [apply Nat.ltb_lt in E; lia|reflexivity].
Qed.

Lemma record_acted_present : forall k x l,
  has_acted k x l = true -> record_acted k x l = l.
Proof.
  intros [] x [r c] H; unfold has_acted in H; simpl in *;
    rewrite py_add_present; auto.
Qed.


(** ** C1 *)

(** C1 fails: id 0 is in the reply set, a run of the cleanup job drops it
    (the set has more than 1000 ids), and the next reply cycle replies to
    candidate 0 again. *)
Lemma cleanup_forgets_acted_id :
  has_acted Reply (AInt 0) big_ledger = true /\
  has_acted Reply (AInt 0) (apply_ops big_ledger [OpCleanup]) = false /\
  In (EPost Reply 0 true)
     (snd (process_interactions default_config Reply (env_with [reply_of 0])
             (bot_with (apply_ops big_ledger [OpCleanup])))).
Proof. vm_compute; auto 10. Qed.

(** C1 as the code has it: once [x] is in a set, later insertions keep it
    there, a cleanup keeps it while that set has at most 1000 ids, a
    second insertion of [x] leaves the ledger unchanged, and a cycle of
    that kind makes no [create_tweet] call on [x] and leaves [x] in the
    set. *)
Theorem acted_id_skipped_until_trim :
  forall (cfg : config) (k : kind) (x : Z) (e : env) (b : bot),
  has_acted k (AInt x) (processed_interactions b) = true ->
  (forall ops, Forall (fun o => o <> OpCleanup) ops ->
     has_acted k (AInt x) (apply_ops (processed_interactions b) ops) = true) /\
  ((List.length (ledger_set k (processed_interactions b)) <= 1000)%nat ->
     has_acted k (AInt x) (cleanup_ledger (processed_interactions b)) = true) /\
  record_acted k (AInt x) (processed_interactions b) = processed_interactions b /\
  (forall ok, ~ In (EPost k x ok) (snd (process_interactions cfg k e b))) /\
  has_acted k (AInt x) (processed_interactions (fst (process_interactions cfg k e b)))
    = true.
Proof.
  intros cfg k x e b H.
  split; [intros ops Hops; now apply apply_ops_records|].
  split.
  { intros Hlen; unfold has_acted, cleanup_ledger in *.
    destruct k; simpl in *; rewrite trim_set_small; auto. }
  split; [now apply record_acted_present|].
  destruct (process_interactions_shape cfg k e b) as [attempts Hs].
  destruct Hs as [[-> [_ [-> _]]] | [-> [-> [_ [_ Hf]]]]].
  - split; [intros ok []|exact H].
  - split; [|now apply record_all_mono].
    intros ok Hin; apply in_app_or in Hin as [Hin|[Hin|[]]]; [|discriminate].
    apply in_attempt_events in Hin as [a [Ha Hx]].
    rewrite Forall_forall in Hf; specialize (Hf a Ha); simpl in Hf.
    rewrite Hx, H in Hf; discriminate.
Qed.

Lemma acted_id_skipped_until_trim_witness :
  has_acted Reply (AInt 11) (processed_interactions (bot_with (mk_ledger [AInt 11] [])))
    = true /\
  ((forall ops, Forall (fun o => o <> OpCleanup) ops ->
     has_acted Reply (AInt 11) (apply_ops (mk_ledger [AInt 11] []) ops) = true) /\
   ((List.length (ledger_set Reply (mk_ledger [AInt 11] [])) <= 1000)%nat ->
     has_acted Reply (AInt 11) (cleanup_ledger (mk_ledger [AInt 11] [])) = true) /\
   record_acted Reply (AInt 11) (mk_ledger [AInt 11] []) = mk_ledger [AInt 11] [] /\
   (forall ok, ~ In (EPost Reply 11 ok)
        (snd (process_interactions default_config Reply (env_with [reply_of 11])
                (bot_with (mk_ledger [AInt 11] []))))) /\
   has_acted Reply (AInt 11)
     (processed_interactions (fst (process_interactions default_config Reply
        (env_with [reply_of 11]) (bot_with (mk_ledger [AInt 11] []))))) = true).
Proof.
  split; [reflexivity|].
  apply (acted_id_skipped_until_trim default_config Reply 11 (env_with [reply_of 11])
           (bot_with (mk_ledger [AInt 11] []))).
  reflexivity.
Defined.

(** ** C2 *)

(** C2 fails: with two eligible replies and the default maximum of 5, the
    second [create_tweet] is made while the first id is inserted but not
    saved; the only save comes after both, when two ids are unsaved. *)
Lemma second_post_before_save :
  snd (process_interactions default_config Reply (env_with [reply_of 11; reply_of 12])
         (bot_with empty_ledger)) =
    [EPost Reply 11 true; EAdd Reply 11; EPost Reply 12 true; EAdd Reply 12; ESave] /\
  unsaved_peak 0
    (snd (process_interactions default_config Reply
            (env_with [reply_of 11; reply_of 12]) (bot_with empty_ledger))) = 2%nat.
Proof. vm_compute; split; reflexivity. Qed.

(** C2 as the code has it: in one call of [process_replies] /
    [process_reposts], an id is inserted right after its [create_tweet]
    returned (never after a failed one), the ledger is saved once, after
    the whole loop, and at no point are more than [max(0, max_per_check)]
    inserted ids unsaved. *)
Theorem ids_saved_once_per_cycle : forall (cfg : config) (k : kind) (e : env) (b : bot),
  exists attempts,
    cycle_shape cfg k e b (fst (process_interactions cfg k e b))
                (snd (process_interactions cfg k e b)) attempts /\
    (unsaved_peak 0 (snd (process_interactions cfg k e b))
       <= Z.to_nat (Z.max 0 (max_per_check cfg k)))%nat.
Proof.
  intros cfg k e b.
  destruct (process_interactions_shape cfg k e b) as [attempts Hs].
  exists attempts; split; [exact Hs|].
  destruct Hs as [[-> _] | [-> [_ [_ [Hb _]]]]]; simpl; [lia|].
  rewrite unsaved_peak_attempts; simpl; lia.
Qed.

(** ** C8 *)

Lemma candidates_loop_eligible : forall cfg k uid c rest s,
  eligible cfg k uid (cs_ledger s) c = true ->
  candidates_loop cfg k uid (c :: rest) s =
    let s' := act_on k c s in
    if (max_per_check cfg k <=? cs_count s')%Z then s'
    else candidates_loop cfg k uid rest s'.
Proof.
  intros cfg k uid c rest s H; unfold eligible in H.
  apply andb_true_iff in H as [H H3]; apply andb_true_iff in H as [H1 H2].
  apply negb_true_iff in H1, H2, H3.
  simpl; now rewrite H1, H2, H3.
Qed.

Lemma eligible_after_record : forall cfg k uid l c x,
  eligible cfg k uid l c = true -> tw_id c <> x ->
  eligible cfg k uid (record_acted k (AInt x) l) c = true.
Proof.
  intros cfg k uid l c x H Hx; unfold eligible in *.
  rewrite has_acted_record.
  replace (py_eq (AInt (tw_id c)) (AInt x)) with false
    by (simpl; symmetry; now apply Z.eqb_neq).
  destruct k; simpl; now rewrite orb_false_r.
Qed.

Lemma has_acted_after_two : forall k l x y z,
  has_acted k (AInt z) (record_acted k (AInt y) (record_acted k (AInt x) l)) =
  has_acted k (AInt z) l || (z =? x)%Z || (z =? y)%Z.
Proof.
  intros k l x y z; rewrite !has_acted_record; destruct k; reflexivity.
Qed.

(** C8: every cycle counts at most [max(0, max_per_check)] actions (the
    [EAdd] events are the increments of [reply_count] / [comment_count],
    which starts at 0); and a reply cycle with [max_replies_per_check = 2]
    whose single bot tweet has 5 eligible, distinct replies, the first two
    [create_tweet] calls returning, acts on exactly the first two, skips the
    other three, and ends with the two acted ids in the ledger it saves. *)
Theorem reply_quota_two_of_five :
  forall (cfg : config) (e : env) (b : bot) (tw c1 c2 c3 c4 c5 : tweet)
         (rest : list bool),
  max_replies_per_check cfg = 2%Z ->
  engagement_time e = true ->
  fst (get_recent_bot_tweets (env_now e) 24 (env_fetch e) (tweets_cache b)) = Ok [tw] ->
  env_search e tw = SearchOk (Some [c1; c2; c3; c4; c5]) ->
  Forall (fun c => eligible cfg Reply (bot_user_id b) (processed_interactions b) c = true)
         [c1; c2; c3; c4; c5] ->
  NoDup (map tw_id [c1; c2; c3; c4; c5]) ->
  env_posts e = true :: true :: rest ->
  (forall cfg' k' e' b',
     (Z.of_nat (count_adds (snd (process_interactions cfg' k' e' b')))
        <= Z.max 0 (max_per_check cfg' k'))%Z) /\
  snd (process_interactions cfg Reply e b) =
    [EPost Reply (tw_id c1) true; EAdd Reply (tw_id c1);
     EPost Reply (tw_id c2) true; EAdd Reply (tw_id c2); ESave] /\
  processed_interactions (fst (process_interactions cfg Reply e b)) =
    record_acted Reply (AInt (tw_id c2))
      (record_acted Reply (AInt (tw_id c1)) (processed_interactions b)) /\
  Forall (fun c => has_acted Reply (AInt (tw_id c))
             (processed_interactions (fst (process_interactions cfg Reply e b))) = true)
         [c1; c2] /\
  Forall (fun c => has_acted Reply (AInt (tw_id c))
             (processed_interactions (fst (process_interactions cfg Reply e b))) = false)
         [c3; c4; c5] /\
  processed_file (fst (process_interactions cfg Reply e b)) =
    save_processed_interactions
      (processed_interactions (fst (process_interactions cfg Reply e b)))
      (env_write e) (processed_file b).
Proof.
  intros cfg e b tw c1 c2 c3 c4 c5 rest Hmax Hgate Hget Hsearch Helig Hnd Hposts.
  split.
  { intros cfg' k' e' b'.
    destruct (process_interactions_shape cfg' k' e' b') as [attempts Hs].
    destruct Hs as [[-> _] | [-> [_ [_ [Hb _]]]]]; simpl; [lia|].
    rewrite count_adds_attempts; exact Hb. }
  inversion Helig as [|? ? E1 Helig1]; inversion Helig1 as [|? ? E2 Helig2];
  inversion Helig2 as [|? ? E3 Helig3]; inversion Helig3 as [|? ? E4 Helig4];
  inversion Helig4 as [|? ? E5 _]; subst.
  simpl in Hnd.
  apply NoDup_cons_iff in Hnd as [N1 Hnd]; apply NoDup_cons_iff in Hnd as [N2 Hnd].
  simpl in N1, N2.
  set (L := processed_interactions b) in *.
  set (L2 := record_acted Reply (AInt (tw_id c2)) (record_acted Reply (AInt (tw_id c1)) L)).
  assert (Hrun : process_interactions cfg Reply e b =
            (mk_bot (bot_user_id b) L2
               (snd (get_recent_bot_tweets (env_now e) 24 (env_fetch e) (tweets_cache b)))
               (save_processed_interactions L2 (env_write e) (processed_file b)),
             [EPost Reply (tw_id c1) true; EAdd Reply (tw_id c1);
              EPost Reply (tw_id c2) true; EAdd Reply (tw_id c2); ESave])).
  { unfold process_interactions; rewrite Hgate; simpl negb; cbv iota.
    destruct (get_recent_bot_tweets _ _ _ _) as [r c'] eqn:G; simpl in Hget; subst r.
    simpl snd.
    assert (Hloop : tweets_loop cfg Reply (bot_user_id b) (env_search e) [tw]
                      (mk_cs L 0 (env_posts e) []) =
                    mk_cs L2 2 rest
                      [EPost Reply (tw_id c1) true; EAdd Reply (tw_id c1);
                       EPost Reply (tw_id c2) true; EAdd Reply (tw_id c2)]).
    { simpl tweets_loop. rewrite Hmax, Hsearch. replace ((2 <=? 0)%Z) with false by reflexivity. cbv iota beta.
      rewrite candidates_loop_eligible by exact E1.
      cbv zeta; unfold act_on at 1; rewrite Hposts.
      cbn [next_post cs_posts cs_ledger cs_count cs_events max_per_check].
      rewrite Hmax; replace (2 <=? 0 + 1)%Z with false by reflexivity; cbv iota.
      rewrite candidates_loop_eligible.
      2: { apply eligible_after_record; [exact E2|].
           intros Heq; apply N1; rewrite Heq; simpl; auto. }
      cbv zeta; unfold act_on.
      cbn [next_post cs_posts cs_ledger cs_count cs_events max_per_check].
      rewrite Hmax; replace (2 <=? 0 + 1 + 1)%Z with true by reflexivity.
      reflexivity. }
    change (processed_interactions b) with L; rewrite Hloop; reflexivity. }
  rewrite Hrun; cbn [fst snd processed_interactions processed_file].
  assert (Hnew : forall c, eligible cfg Reply (bot_user_id b) L c = true ->
                 has_acted Reply (AInt (tw_id c)) L = false).
  { intros c Hc; unfold eligible in Hc.
    apply andb_true_iff in Hc as [Hc _]; apply andb_true_iff in Hc as [Hc _].
    now apply negb_true_iff in Hc. }
  simpl in N1, N2.
  split; [reflexivity|]; split; [reflexivity|]; split; [|split; [|reflexivity]].
  - unfold L2; apply Forall_forall; intros c Hc; rewrite has_acted_after_two.
    destruct Hc as [<-|[<-|[]]]; rewrite Z.eqb_refl; now rewrite ?orb_true_r.
  - unfold L2; apply Forall_forall; intros c Hc; rewrite has_acted_after_two.
    destruct Hc as [<-|[<-|[<-|[]]]]; rewrite Hnew by assumption; simpl;
      apply orb_false_iff; split; apply Z.eqb_neq; intros Heq;
      [apply N1|apply N2| apply N1|apply N2|apply N1|apply N2];
      rewrite Heq; simpl; tauto.
Qed.

Lemma reply_quota_two_of_five_witness :
  (forall cfg' k' e' b',
     (Z.of_nat (count_adds (snd (process_interactions cfg' k' e' b')))
        <= Z.max 0 (max_per_check cfg' k'))%Z) /\
  snd (process_interactions config8 Reply env8 bot8) =
    [EPost Reply 11 true; EAdd Reply 11; EPost Reply 12 true; EAdd Reply 12; ESave] /\
  processed_interactions (fst (process_interactions config8 Reply env8 bot8)) =
    record_acted Reply (AInt 12) (record_acted Reply (AInt 11) empty_ledger) /\
  Forall (fun c => has_acted Reply (AInt (tw_id c))
             (processed_interactions (fst (process_interactions config8 Reply env8 bot8)))
           = true) [reply_of 11; reply_of 12] /\
  Forall (fun c => has_acted Reply (AInt (tw_id c))
             (processed_interactions (fst (process_interactions config8 Reply env8 bot8)))
           = false) [reply_of 13; reply_of 14; reply_of 15] /\
  processed_file (fst (process_interactions config8 Reply env8 bot8)) =
    save_processed_interactions
      (processed_interactions (fst (process_interactions config8 Reply env8 bot8)))
      (env_write env8) (processed_file bot8).
Proof.
  apply (reply_quota_two_of_five config8 env8 bot8 apod_tweet (reply_of 11)
           (reply_of 12) (reply_of 13) (reply_of 14) (reply_of 15)
           [true; true; true]);
    try reflexivity.
  - vm_compute; repeat constructor.
  - simpl; repeat constructor; simpl; lia.
Defined.

(** ** C7 *)

(** C7: the spec's scenario holds (["spam"] filters "this is SPAM content"),
    but a configured keyword with an upper-case letter is compared as
    written against the lowercased text, so ["Spam"] does not filter
    "this is spam content" although it occurs there case-insensitively; a
    reply cycle then answers that reply. *)
Theorem blacklist_keyword_not_lowered :
  contains_blacklisted_keywords ["spam"%string] "this is SPAM content"%string = true /\
  contains_ci "Spam"%string "this is spam content"%string = true /\
  contains_blacklisted_keywords ["Spam"%string] "this is spam content"%string = false /\
  In (EPost Reply 21 true)
     (snd (process_interactions (mk_config 5 3 15 ["Spam"%string])
             Reply (env_with [mk_tweet 21 "this is spam content"%string 7 (Some 1500%Z) 1])
             (bot_with empty_ledger))).
Proof. vm_compute; auto 10. Qed.

(** ** C9 *)

(** C9 fails: two fires of the reply job with no thread finishing in
    between leave two [process_replies] threads running. *)
Lemma reply_fire_not_rejected :
  running Reply (sched_run sched_init [Fire Reply; Fire Reply]) = 2%nat.
Proof. reflexivity. Qed.

Theorem fire_always_starts_thread : forall (s : sched) (k : kind),
  running k (sched_step s (Fire k)) = S (running k s) /\
  running (other_kind k) (sched_step s (Fire k)) = running (other_kind k) s.
Proof. intros s []; split; reflexivity. Qed.

(** * Further properties of the code *)

(** ** Trimming a set *)

Lemma py_nodup_middle : forall s y t,
  py_nodup (s ++ y :: t) = true -> py_in y s = false.
Proof.
  induction s as [|x s IH]; intros y t H; simpl; [reflexivity|].
  simpl in H; apply andb_true_iff in H as [Hx H].
  apply negb_true_iff in Hx; unfold py_in in Hx.
  rewrite existsb_app in Hx; simpl in Hx.
  apply orb_false_iff in Hx as [_ Hx]; apply orb_false_iff in Hx as [Hxy _].
  rewrite py_eq_sym, Hxy; simpl; eapply IH; eauto.
Qed.

Lemma fold_add_nodup : forall l s,
  py_nodup (s ++ l) = true ->
  fold_left (fun s y => py_add y s) l s = s ++ l.
Proof.
  induction l as [|y l IH]; intros s H; simpl; [now rewrite app_nil_r|].
  unfold py_add at 2; rewrite (py_nodup_middle s y l H).
  rewrite IH; [now rewrite <- app_assoc|].
  now rewrite <- app_assoc.
Qed.

Lemma py_set_of_list_nodup : forall l,
  py_nodup l = true -> py_set_of_list l = l.
Proof. intros l H; unfold py_set_of_list; now apply fold_add_nodup. Qed.

Lemma py_nodup_skipn : forall n s,
  py_nodup s = true -> py_nodup (skipn n s) = true.
Proof.
  induction n as [|n IH]; intros [|x s] H; simpl; auto.
  simpl in H; apply andb_true_iff in H as [_ H]; auto.
Qed.

(** [cleanup_old_interactions] on a set of more than 1000 ids: the set
    keeps exactly 500 of its ids, all of them ids it had, and stays
    duplicate-free. *)
Theorem trim_set_keeps_500 : forall s : pyset,
  py_nodup s = true ->
  (1000 < List.length s)%nat ->
  List.length (trim_set s) = 500%nat /\
  (forall x, In x (trim_set s) -> In x s) /\
  py_nodup (trim_set s) = true.
Proof.
  intros s Hs Hlen; unfold trim_set.
  apply Nat.ltb_lt in Hlen as Hlt; rewrite Hlt; apply Nat.ltb_lt in Hlt.
  rewrite py_set_of_list_nodup by (now apply py_nodup_skipn).
  split; [rewrite length_skipn; lia|]; split.
  - intros x Hx; rewrite <- (firstn_skipn (List.length s - 500) s).
    apply in_or_app; now right.
  - now apply py_nodup_skipn.
Qed.

Lemma trim_set_keeps_500_witness :
  List.length (trim_set ids_1001) = 500%nat /\
  (forall x, In x (trim_set ids_1001) -> In x ids_1001) /\
  py_nodup (trim_set ids_1001) = true.
Proof.
  apply trim_set_keeps_500; vm_compute; reflexivity.
Defined.

(** ** Writing and reading the file *)

(** A save whose [json.dump] fails after the file was opened for writing
    leaves a truncated file: the next load starts from the empty ledger,
    whatever was saved before.  A save whose [open] fails leaves the file
    as it was. *)
Theorem failed_dump_loses_history : forall (l : ledger) (st : storage),
  load_processed_interactions (save_processed_interactions l DumpFails st)
    = Ok empty_ledger /\
  save_processed_interactions l OpenFails st = st.
Proof. intros l st; split; reflexivity. Qed.

(** One ill-typed entry drops both sets: if either the [replied_to] or
    the [commented_reposts] entry of the file's object cannot be turned
    into a set (a number, boolean or null, or a list holding a list or
    an object), the load gives the empty ledger, even when the other entry
    is a valid list of ids. *)
Theorem bad_entry_drops_both_sets : forall (kvs : list (string * json)) (e : exc),
  (bind (py_get (JObj kvs) "replied_to") py_set = Raise e \/
   bind (py_get (JObj kvs) "commented_reposts") py_set = Raise e) ->
  load_processed_interactions (Stored (JObj kvs)) = Ok empty_ledger.
Proof.
  intros kvs e H; unfold load_processed_interactions.
  change (file_exists (Stored (JObj kvs))) with true; cbv iota.
  change (json_load (Stored (JObj kvs))) with (Ok (JObj kvs)).
  cbn [bind].
  destruct (py_get (JObj kvs) "replied_to") as [r|e1]; cbn [bind] in H |- *;
    [|reflexivity].
  destruct (py_set r) as [r'|e2]; cbn [bind] in H |- *; [|reflexivity].
  destruct H as [H|H]; [discriminate|].
  destruct (py_get (JObj kvs) "commented_reposts") as [c|e3]; cbn [bind] in H |- *;
    [|reflexivity].
  destruct (py_set c) as [c'|e4]; [discriminate|reflexivity].
Qed.

Lemma bad_entry_drops_both_sets_witness :
  load_processed_interactions
    (Stored (JObj [("replied_to"%string, JArr [JNum 1]);
                   ("commented_reposts"%string, JNum 5)]))
    = Ok empty_ledger.
Proof.
  apply (bad_entry_drops_both_sets _ TypeError); right; reflexivity.
Defined.

(** A file whose JSON is not an object (a list, a string, a number, ...)
    loads as the empty ledger. *)
Theorem non_object_file_loads_empty : forall j : json,
  match j with
  | JObj _ => True
  | _ => load_processed_interactions (Stored j) = Ok empty_ledger
  end.
Proof. intros []; reflexivity. Qed.

(** ** The tweets cache, further *)

(** Within the cache's lifetime the API is not called: after a refill at
    [now] with a non-empty list, a lookup at any [now'] less than
    [cache_duration_minutes] minutes later answers from that list, the
    same whatever the API would have answered, and keeps the cache. *)
Theorem cache_hit_ignores_fetch :
  forall (now now' hours hours' : Z) (c : cache) (t : tweet) (ts : list tweet)
         (f : fetch_outcome),
  is_cache_valid now c = false ->
  (now' - now < cache_duration_minutes c * 60)%Z ->
  let c' := snd (get_recent_bot_tweets now hours (FetchOk (Some (t :: ts))) c) in
  get_recent_bot_tweets now' hours' f c' =
    (Ok (recent_filter (now' - hours' * 3600) (t :: ts)), c').
Proof.
  intros now now' hours hours' c t ts f Hv Hage c'.
  assert (Hc : c' = mk_cache (Some (t :: ts)) (Some now) (cache_duration_minutes c))
    by (unfold c', get_recent_bot_tweets; rewrite Hv; reflexivity).
  rewrite Hc; unfold get_recent_bot_tweets, is_cache_valid; simpl.
  apply Z.ltb_lt in Hage; now rewrite Hage.
Qed.

Lemma cache_hit_ignores_fetch_witness :
  get_recent_bot_tweets 2500 24 FetchRaises
    (snd (get_recent_bot_tweets 2000 24 (FetchOk (Some [apod_tweet])) cache5)) =
  (Ok (recent_filter (2500 - 24 * 3600) [apod_tweet]),
   snd (get_recent_bot_tweets 2000 24 (FetchOk (Some [apod_tweet])) cache5)).
Proof.
  apply (cache_hit_ignores_fetch 2000 2500 24 24 cache5 apod_tweet [] FetchRaises);
    reflexivity.
Defined.

(** After [clear_tweets_cache] the next lookup always calls the API and
    its answer decides: a failed call or an empty answer gives no tweets
    (there is no stale snapshot to fall back on) and leaves the cache
    cleared; a non-empty answer becomes the new snapshot. *)
Theorem clear_forces_refill : forall (now hours : Z) (c : cache) (f : fetch_outcome),
  get_recent_bot_tweets now hours f (clear_tweets_cache c) =
  match f with
  | FetchOk (Some ((_ :: _) as data)) =>
      (Ok (recent_filter (now - hours * 3600) data),
       mk_cache (Some data) (Some now) (cache_duration_minutes c))
  | _ => (Ok [], clear_tweets_cache c)
  end.
Proof. intros now hours c [|[[|t ts]|]]; reflexivity. Qed.

(** On a cache of the shape the bot keeps, [get_recent_bot_tweets] never
    raises and leaves a cache of that shape. *)
Theorem get_recent_keeps_cache_wf :
  forall (now hours : Z) (f : fetch_outcome) (c : cache),
  cache_wf c = true ->
  cache_wf (snd (get_recent_bot_tweets now hours f c)) = true /\
  (forall e, fst (get_recent_bot_tweets now hours f c) <> Raise e).
Proof.
  intros now hours f [d ts dur] H; unfold get_recent_bot_tweets, cache_wf in *;
    simpl in *.
  destruct (is_cache_valid now (mk_cache d ts dur)).
  - destruct d; simpl; split; auto; discriminate.
  - destruct f as [|[[|t l]|]]; simpl.
    + destruct d as [stale|]; destruct ts; simpl; try discriminate;
        split; auto; discriminate.
    + split; auto; discriminate.
    + split; auto; discriminate.
    + split; auto; discriminate.
Qed.

Lemma get_recent_keeps_cache_wf_witness :
  cache_wf (snd (get_recent_bot_tweets 2000 24 FetchRaises cache5)) = true /\
  (forall e, fst (get_recent_bot_tweets 2000 24 FetchRaises cache5) <> Raise e).
Proof. apply get_recent_keeps_cache_wf; reflexivity. Defined.

(** ** What a cycle posts on *)

Lemma candidates_loop_posts : forall cfg k uid cands s k' x ok,
  In (EPost k' x ok) (cs_events (candidates_loop cfg k uid cands s)) ->
  In (EPost k' x ok) (cs_events s) \/
  exists c, In c cands /\ tw_id c = x /\ tw_author_id c <> uid /\
            contains_blacklisted_keywords (blacklist_keywords cfg) (tw_text c) = false.
Proof.
  intros cfg k uid cands; induction cands as [|c rest IH]; intros s k' x ok H;
    simpl in H; [now left|].
  destruct (has_acted k (AInt (tw_id c)) (cs_ledger s)) eqn:Ha.
  { destruct (IH s k' x ok H) as [H'|[c' Hc']]; [now left|right; exists c'; simpl; tauto]. }
  destruct (tw_author_id c =? uid)%Z eqn:Hu.
  { destruct (IH s k' x ok H) as [H'|[c' Hc']]; [now left|right; exists c'; simpl; tauto]. }
  destruct (contains_blacklisted_keywords _ _) eqn:Hb.
  { destruct (IH s k' x ok H) as [H'|[c' Hc']]; [now left|right; exists c'; simpl; tauto]. }
  assert (Hact : forall k'' y ok',
             In (EPost k'' y ok') (cs_events (act_on k c s)) ->
             In (EPost k'' y ok') (cs_events s) \/ y = tw_id c).
  { intros k'' y ok' Hin; unfold act_on in Hin.
    destruct (next_post (cs_posts s)) as [[] r]; simpl in Hin;
      apply in_app_or in Hin as [Hin|Hin]; auto; simpl in Hin;
      intuition congruence. }
  assert (Hc : exists c0, In c0 (c :: rest) /\ tw_id c0 = tw_id c /\
                 tw_author_id c0 <> uid /\
                 contains_blacklisted_keywords (blacklist_keywords cfg) (tw_text c0)
                   = false).
  { exists c; repeat split; simpl; auto; apply Z.eqb_neq; exact Hu. }
  destruct (_ <=? cs_count (act_on k c s))%Z.
  - destruct (Hact _ _ _ H) as [H'| ->]; [now left|right; exact Hc].
  - destruct (IH _ _ _ _ H) as [H'|[c' Hc']].
    + destruct (Hact _ _ _ H') as [H''| ->]; [now left|right; exact Hc].
    + right; exists c'; simpl; tauto.
Qed.

Lemma tweets_loop_posts : forall cfg k uid search tws s k' x ok,
  In (EPost k' x ok) (cs_events (tweets_loop cfg k uid search tws s)) ->
  In (EPost k' x ok) (cs_events s) \/
  exists tw cands c, search tw = SearchOk (Some cands) /\ In c cands /\
    tw_id c = x /\ tw_author_id c <> uid /\
    contains_blacklisted_keywords (blacklist_keywords cfg) (tw_text c) = false.
Proof.
  intros cfg k uid search tws; induction tws as [|tw rest IH]; intros s k' x ok H;
    simpl in H; [now left|].
  destruct (_ <=? cs_count s)%Z; [now left|].
  destruct (search tw) as [|[[|c cs]|]] eqn:Hs; try (now apply IH).
  destruct (IH _ _ _ _ H) as [H'|H']; [|now right].
  destruct (candidates_loop_posts _ _ _ _ _ _ _ _ H') as [H''|[c' Hc']];
    [now left|right; exists tw, (c :: cs), c'; tauto].
Qed.

(** A cycle calls [create_tweet] only on a candidate that a search
    returned, that the bot did not write itself and whose text has no
    blacklisted keyword. *)
Theorem posts_only_on_foreign_clean_candidates :
  forall (cfg : config) (k : kind) (e : env) (b : bot) (x : Z) (ok : bool),
  In (EPost k x ok) (snd (process_interactions cfg k e b)) ->
  exists tw cands c, env_search e tw = SearchOk (Some cands) /\ In c cands /\
    tw_id c = x /\ tw_author_id c <> bot_user_id b /\
    contains_blacklisted_keywords (blacklist_keywords cfg) (tw_text c) = false.
Proof.
  intros cfg k e b x ok H; unfold process_interactions in H.
  destruct (engagement_time e); simpl in H; [|contradiction].
  destruct (get_recent_bot_tweets _ _ _ _) as [[tws|exn] c']; simpl in H;
    [|contradiction].
  apply in_app_or in H as [H|[H|[]]]; [|discriminate].
  destruct (tweets_loop_posts _ _ _ _ _ _ _ _ _ H) as [[]|H']; exact H'.
Qed.

Lemma posts_only_on_foreign_clean_candidates_witness :
  exists tw cands c, env_search (env_with [reply_of 11]) tw = SearchOk (Some cands) /\
    In c cands /\ tw_id c = 11%Z /\ tw_author_id c <> bot_user_id (bot_with empty_ledger) /\
    contains_blacklisted_keywords (blacklist_keywords default_config) (tw_text c) = false.
Proof.
  apply (posts_only_on_foreign_clean_candidates default_config Reply
           (env_with [reply_of 11]) (bot_with empty_ledger) 11 true).
  vm_compute; auto.
Defined.

(** ** The file after a cycle *)

Lemma save_load_agree : forall (l : ledger) (st : storage),
  exists l',
    load_processed_interactions (save_processed_interactions l WriteOk st) = Ok l' /\
    forall k x, has_acted k x l' = has_acted k x l.
Proof.
  intros [r c] st; unfold load_processed_interactions, save_processed_interactions.
  simpl; rewrite !atoms_of_jsons_dump; simpl.
  eexists; split; [reflexivity|].
  intros [] x; unfold has_acted; simpl; apply py_in_set_of_list.
Qed.

(** After a cycle that got as far as saving, with a successful write, the
    file reloads to a ledger that answers [hasActed] as the bot's ledger
    in memory does. *)
Theorem cycle_file_matches_ledger : forall (cfg : config) (k : kind) (e : env) (b : bot),
  env_write e = WriteOk ->
  snd (process_interactions cfg k e b) <> [] ->
  exists l',
    load_processed_interactions (processed_file (fst (process_interactions cfg k e b)))
      = Ok l' /\
    forall k' x, has_acted k' x l' =
                 has_acted k' x (processed_interactions (fst (process_interactions cfg k e b))).
Proof.
  intros cfg k e b Hw Hne.
  destruct (process_interactions_shape cfg k e b) as [attempts Hs].
  destruct Hs as [[He _] | [_ [_ [Hf _]]]]; [contradiction|].
  rewrite Hf, Hw; apply save_load_agree.
Qed.

Lemma cycle_file_matches_ledger_witness :
  exists l',
    load_processed_interactions
      (processed_file (fst (process_interactions default_config Reply
                              (env_with [reply_of 11]) (bot_with empty_ledger))))
      = Ok l' /\
    forall k' x, has_acted k' x l' =
      has_acted k' x (processed_interactions (fst (process_interactions default_config
                        Reply (env_with [reply_of 11]) (bot_with empty_ledger)))).
Proof.
  apply cycle_file_matches_ledger; [reflexivity|vm_compute; discriminate].
Defined.

(** ** Parsing the keyword blacklist *)

Lemma split_trailing_sep : forall s cur,
  In EmptyString (py_split_acc "," (String.append s ","%string) cur).
Proof.
  induction s as [|c s IH]; intros cur; simpl.
  - right; left; reflexivity.
  - destruct (Ascii.eqb c ","); [right|]; apply IH.
Qed.

Lemma empty_keyword_matches : forall kws t,
  In EmptyString kws -> contains_blacklisted_keywords kws t = true.
Proof.
  intros kws t H; unfold contains_blacklisted_keywords.
  apply existsb_exists; exists EmptyString; split; [exact H|].
  destruct (str_lower t); reflexivity.
Qed.

(** A [BLACKLIST_KEYWORDS] value that starts or ends with a comma yields
    an empty keyword, and every text is then blacklisted. *)
Theorem stray_comma_blacklists_everything : forall s t : string,
  contains_blacklisted_keywords (parse_blacklist_keywords (String.append s ","%string)) t
    = true /\
  contains_blacklisted_keywords (parse_blacklist_keywords (String.append ","%string s)) t
    = true.
Proof.
  intros s t; split; apply empty_keyword_matches; unfold parse_blacklist_keywords.
  - apply (in_map py_strip _ EmptyString), split_trailing_sep.
  - simpl; left; reflexivity.
Qed.

Lemma is_upper_lower : forall c, is_upper (ascii_lower c) = false.
Proof.
  intros [[] [] [] [] [] [] [] []]; reflexivity.
Qed.

Lemma has_upper_str_lower : forall t, has_upper (str_lower t) = false.
Proof.
  induction t as [|c t IH]; simpl; [reflexivity|].
  rewrite is_upper_lower, IH; reflexivity.
Qed.

Lemma str_prefix_upper : forall kw s,
  has_upper s = false -> has_upper kw = true -> str_prefix kw s = false.
Proof.
  induction kw as [|c kw IH]; intros s Hs Hk; [discriminate|].
  destruct s as [|d s]; [reflexivity|]; simpl in *.
  apply orb_false_iff in Hs as [Hd Hs].
  destruct (Ascii.eqb c d) eqn:Hcd; [|reflexivity]; simpl.
  apply Ascii.eqb_eq in Hcd; subst d; rewrite Hd in Hk; simpl in Hk.
  apply IH; assumption.
Qed.

Lemma str_contains_upper : forall kw s,
  has_upper s = false -> has_upper kw = true -> str_contains kw s = false.
Proof.
  intros kw s; induction s as [|c s IH]; intros Hs Hk; simpl.
  - rewrite str_prefix_upper by (simpl; auto); reflexivity.
  - rewrite (str_prefix_upper kw (String c s)) by assumption; simpl.
    simpl in Hs; apply orb_false_iff in Hs as [_ Hs]; auto.
Qed.

(** A keyword with an upper-case letter never matches anything: the
    blacklist acts exactly as the list of its keywords without one. *)
Theorem upper_case_keywords_inert : forall (kws : list string) (t : string),
  contains_blacklisted_keywords kws t =
  contains_blacklisted_keywords (filter (fun kw => negb (has_upper kw)) kws) t.
Proof.
  intros kws t; unfold contains_blacklisted_keywords.
  induction kws as [|kw kws IH]; simpl; [reflexivity|].
  destruct (has_upper kw) eqn:Hu; simpl; rewrite IH; [|reflexivity].
  rewrite str_contains_upper by (auto using has_upper_str_lower); reflexivity.
Qed.

(** ** The dashboard's view of the file *)

(** After the bot saves its ledger successfully, the dashboard's
    [bot_replied] / [bot_commented] marks are the bot's own [hasActed]
    answers for those ids. *)
Theorem dashboard_marks_match_ledger :
  forall (l : ledger) (st : storage) (reply_ids repost_ids : list Z),
  engagement_marks (save_processed_interactions l WriteOk st) reply_ids repost_ids =
  Ok (map (fun x => has_acted Reply (AInt x) l) reply_ids,
      map (fun x => has_acted Repost (AInt x) l) repost_ids).
Proof.
  intros [r c] st rids pids; unfold engagement_marks; simpl.
  rewrite !atoms_of_jsons_dump; simpl.
  f_equal; f_equal; apply map_ext; intros x; unfold has_acted; simpl;
    apply py_in_set_of_list.
Qed.

(** After a successful save, [/api/stats] reports the sizes of the two
    sets of the saved ledger. *)
Theorem dashboard_stats_after_save : forall (l : ledger) (st : storage),
  get_stats_counts (save_processed_interactions l WriteOk st) =
  Ok (List.length (replied_to l), List.length (commented_reposts l)).
Proof.
  intros [r c] st; unfold get_stats_counts; simpl.
  rewrite !length_map; reflexivity.
Qed.

(** When the file is missing or cannot be read as JSON, the dashboard
    reports zero processed interactions and marks no reply or repost. *)
Theorem dashboard_unreadable_file_empty : forall (st : storage) (e : exc),
  json_load st = Raise e ->
  get_stats_counts st = Ok (0%nat, 0%nat) /\
  forall reply_ids repost_ids,
    engagement_marks st reply_ids repost_ids =
    Ok (map (fun _ => false) reply_ids, map (fun _ => false) repost_ids).
Proof.
  intros [| | |j] e H; try discriminate; split; try reflexivity;
    intros rids pids; reflexivity.
Qed.

Lemma dashboard_unreadable_file_empty_witness :
  json_load Garbage = Raise JSONDecodeError /\
  get_stats_counts Garbage = Ok (0%nat, 0%nat).
Proof.
  split; [reflexivity|].
  apply (proj1 (dashboard_unreadable_file_empty Garbage JSONDecodeError eq_refl)).
Defined.

(** A file holding JSON that is not an object makes [/api/stats] fail
    with [AttributeError], and the engagement route too whenever
    [twitter_api] is available (otherwise it answers 500 before reading the
    file), while the bot's loader falls back to the empty ledger for the
    same file. *)
Theorem dashboard_fails_on_non_object :
  forall (j : json) (twitter_api_ok : bool) (reply_ids repost_ids : list Z),
  (forall kvs, j <> JObj kvs) ->
  get_stats_counts (Stored j) = Raise AttributeError /\
  get_tweet_engagement twitter_api_ok (Stored j) reply_ids repost_ids =
    (if twitter_api_ok then Raise AttributeError else Ok ApiUnavailable) /\
  load_processed_interactions (Stored j) = Ok empty_ledger.
Proof.
  intros [| | | | |kvs] [] rids pids H;
    try (exfalso; apply (H kvs); reflexivity); repeat split; reflexivity.
Qed.

Lemma dashboard_fails_on_non_object_witness :
  (forall kvs, JArr [] <> JObj kvs) /\
  get_tweet_engagement true (Stored (JArr [])) [5%Z] [] = Raise AttributeError.
Proof.
  assert (H : forall kvs, JArr [] <> JObj kvs) by discriminate.
  split; [exact H|].
  apply (proj1 (proj2 (dashboard_fails_on_non_object (JArr []) true [5%Z] [] H))).
Defined.
